(** * The API client facade of the frontend (src/frontend/src/api/index.js)

  The module builds one axios client, installs one response interceptor
  on it and exports two request helpers together with the client itself.
  This development embeds the module shallowly:

  - [JS]     the fragment of JavaScript values and operators the module
             uses (truthiness, [||], [?.], member access, template
             literals);
  - [Axios]  the part of the axios request pipeline the module relies on
             (instance defaults, config merging, interceptor chains),
             written as state passing over an event loop;
  - [Api]    the module itself, line by line;
  - the theorems about it. *)

From Stdlib Require Import Ascii.
From stdpp Require Import base strings list gmap pretty.

Open Scope string_scope.
Open Scope list_scope.
Set Warnings "-register-all".

(* ===================================================================== *)
(** ** JavaScript values *)
(* ===================================================================== *)

Module JS.

(** Values that travel through the module: primitives and plain objects
    (an object is its list of own properties, in insertion order; a read
    takes the first entry for the key).  [VNum n] is the number nearest
    to the integer [n], which within the safe range is [n] itself; other
    numbers play no part in the module. *)
Inductive value : Type :=
| VUndefined
| VNull
| VBool (b : bool)
| VNum (n : Z)
| VStr (s : string)
| VObj (fields : list (string * value)).

(** How a promise settles: fulfilled with a value, or rejected with the
    value that was thrown. *)
Inductive outcome (A : Type) : Type :=
| Fulfilled (a : A)
| Rejected (e : value).
Global Arguments Fulfilled {A} a.
Global Arguments Rejected {A} e.

(** ToBoolean. *)
Definition truthy (v : value) : bool :=
  match v with
  | VUndefined | VNull => false
  | VBool b => b
  | VNum n => negb (n =? 0)%Z
  | VStr s => negb (String.eqb s "")
  | VObj _ => true
  end.

(** [a || b]. *)
Definition or (a b : value) : value := if truthy a then a else b.

(** Own property of a property list; [undefined] when there is none. *)
Fixpoint own (fields : list (string * value)) (k : string) : value :=
  match fields with
  | [] => VUndefined
  | (k', v) :: rest => if String.eqb k' k then v else own rest k
  end.

(** Whether a property list has an own property [k]. *)
Fixpoint has_own (fields : list (string * value)) (k : string) : bool :=
  match fields with
  | [] => false
  | (k', _) :: rest => String.eqb k' k || has_own rest k
  end.

(** [o[k] = v] on a property list: the value of a property that is there
    is replaced where it stands, a new property goes to the end. *)
Fixpoint set_own (fields : list (string * value)) (k : string) (v : value)
  : list (string * value) :=
  match fields with
  | [] => [(k, v)]
  | (k', v') :: rest =>
      if String.eqb k' k then (k', v) :: rest
      else (k', v') :: set_own rest k v
  end.

(** The error a member access on [undefined] or [null] throws, and a
    conversion that finds nothing to call. *)
Definition TypeError : value := VObj [("name", VStr "TypeError")].

(** [v.k]: throws on [undefined] and [null]; primitives have no property
    under the keys the module reads. *)
Definition member (v : value) (k : string) : outcome value :=
  match v with
  | VUndefined | VNull => Rejected TypeError
  | VObj fields => Fulfilled (own fields k)
  | _ => Fulfilled VUndefined
  end.

(** [v?.k]: as [v.k], but [undefined] on [undefined] and [null]. *)
Definition opt_member (v : value) (k : string) : value :=
  match v with
  | VObj fields => own fields k
  | _ => VUndefined
  end.

(** [Number.isSafeInteger]: the integers a number holds exactly; the
    string form of such a number is its decimal form. *)
Definition safe_integer (n : Z) : bool :=
  (-9007199254740991 <=? n)%Z && (n <=? 9007199254740991)%Z.

(** The number nearest to a positive integer [a]: [a] rounded to 53
    significant bits, a tie going to the even significand. *)
Definition nearest_number (a : Z) : Z :=
  let bits := (Z.log2 a + 1)%Z in
  if (bits <=? 53)%Z then a
  else
    let shift := (bits - 53)%Z in
    let q := Z.shiftr a shift in
    let r := Z.land a (Z.ones shift) in
    let half := Z.shiftl 1 (shift - 1) in
    let up := (half <? r)%Z || ((r =? half)%Z && Z.odd q) in
    Z.shiftl (if up then q + 1 else q)%Z shift.

Definition decimal_length (a : Z) : Z := Z.of_nat (String.length (pretty a)).

(** The numeral with [k] significant digits that reads back as the
    number [m] and lies nearest to it (the even one on a tie), if there
    is one. *)
Definition numeral_of_length (m k : Z) : option Z :=
  let unit := (10 ^ Z.max 0 (decimal_length m - k))%Z in
  let lo := (m / unit * unit)%Z in
  let hi := (lo + unit)%Z in
  let lo_reads := (nearest_number lo =? m)%Z in
  let hi_reads := (nearest_number hi =? m)%Z in
  if lo_reads && hi_reads then
    if (m - lo <? hi - m)%Z then Some lo
    else if (hi - m <? m - lo)%Z then Some hi
    else if Z.even (lo / unit) then Some lo else Some hi
  else if lo_reads then Some lo
  else if hi_reads then Some hi
  else None.

(** The shortest such numeral: the digits a number is printed with. *)
Fixpoint shortest_numeral (m : Z) (lengths : list Z) : Z :=
  match lengths with
  | [] => m
  | k :: rest =>
      match numeral_of_length m k with
      | Some v => v
      | None => shortest_numeral m rest
      end
  end.

Fixpoint strip_zeros (s : string) : string :=
  match s with
  | EmptyString => EmptyString
  | String a rest =>
      match strip_zeros rest with
      | EmptyString =>
          if Ascii.eqb a "0"%char then EmptyString else String a EmptyString
      | kept => String a kept
      end
  end.

(** Number::toString on a positive integer beyond the safe range: the
    shortest digits that read back as the number, written out in full
    up to 21 digits and with an exponent beyond. *)
Definition large_to_string (a : Z) : string :=
  let m := nearest_number a in
  if (2 ^ 1024 <=? m)%Z then "Infinity"
  else
    let v := shortest_numeral m (Z.of_nat <$> seq 1 17) in
    if (decimal_length v <=? 21)%Z then pretty v
    else
      match strip_zeros (pretty v) with
      | EmptyString => pretty v
      | String d EmptyString =>
          String d ("e+" +:+ pretty (decimal_length v - 1)%Z)
      | String d more =>
          String d ("." +:+ more +:+ "e+" +:+ pretty (decimal_length v - 1)%Z)
      end.

(** Number::toString on [VNum n]. *)
Definition number_to_string (n : Z) : string :=
  if safe_integer n then pretty n
  else if (n <? 0)%Z then "-" +:+ large_to_string (- n)
  else large_to_string n.

(** ToString, as a template literal applies it to a substitution.  An
    object is converted by calling its [toString]: the inherited one
    gives ["[object Object]"]; an own property of that name hides it,
    and as no value here is a function there is then nothing to call
    ([valueOf] hands back the object) and the conversion throws. *)
Definition to_string (v : value) : outcome string :=
  match v with
  | VUndefined => Fulfilled "undefined"
  | VNull => Fulfilled "null"
  | VBool true => Fulfilled "true"
  | VBool false => Fulfilled "false"
  | VNum n => Fulfilled (number_to_string n)
  | VStr s => Fulfilled s
  | VObj fields =>
      if has_own fields "toString" then Rejected TypeError
      else Fulfilled "[object Object]"
  end.

(** The string form of a value that has one. *)
Definition string_form (v : value) : string :=
  match to_string v with Fulfilled s => s | Rejected _ => "" end.

(** A value that has a string form: converting it does not throw. *)
Class Stringifies (v : value) : Prop :=
  stringifies :
    match to_string v with Fulfilled _ => True | Rejected _ => False end.
Global Hint Extern 0 (Stringifies _) => exact I : typeclass_instances.

End JS.

Import JS.

(* ===================================================================== *)
(** ** The axios request pipeline *)
(* ===================================================================== *)

Module Axios.

Inductive http_method : Type := GET | POST.

(** A request config, restricted to the keys the module sets or leaves
    to axios; [VUndefined] (or [None]) stands for an absent key. *)
Record config : Type := Config {
  method : option http_method;
  baseURL : value;
  url : value;
  params : value;
  data : value;
  timeout : value
}.

Definition empty_config : config :=
  Config None VUndefined VUndefined VUndefined VUndefined VUndefined.

(** The library defaults every instance starts from: no timeout. *)
Definition library_defaults : config :=
  Config None VUndefined VUndefined VUndefined VUndefined (VNum 0).

(** A key merged as "second config, else first". *)
Definition default_to (a b : value) : value :=
  match b with VUndefined => a | _ => b end.

(** [utils.merge(target, source)]: two objects are merged key by key and
    in depth, the properties of [target] first and each property of
    [source] assigned over them; anything else gives [source] (a copy
    of it, which for values that never change is [source]). *)
Fixpoint merge (target source : value) : value :=
  match target, source with
  | VObj into, VObj from =>
      VObj ((fix assign (acc rest : list (string * value)) :=
               match rest with
               | [] => acc
               | (k, v) :: rest' =>
                   assign (set_own acc k (merge (own acc k) v)) rest'
               end) into from)
  | _, _ => source
  end.

(** A key merged in depth: the second config merged over the first. *)
Definition mergeDeepProperties (a b : value) : value :=
  match b with VUndefined => a | _ => merge a b end.

(** [mergeConfig(c1, c2)]: [url], [method] and [data] come from [c2]
    only; [baseURL] and [timeout] fall back to [c1]; [params], a key
    without a rule of its own, is merged in depth. *)
Definition mergeConfig (c1 c2 : config) : config :=
  {| method := method c2;
     baseURL := default_to (baseURL c1) (baseURL c2);
     url := url c2;
     params := mergeDeepProperties (params c1) (params c2);
     data := data c2;
     timeout := default_to (timeout c1) (timeout c2) |}.

(** An interceptor: the two callbacks given to [use]; a missing callback
    lets the settlement pass. *)
Record interceptor (A : Type) : Type := Interceptor {
  fulfilled : option (A -> outcome A);
  rejected : option (value -> outcome A)
}.
Global Arguments Interceptor {A} fulfilled rejected.
Global Arguments fulfilled {A} i.
Global Arguments rejected {A} i.

(** [p.then(fulfilled, rejected)] on a settled promise. *)
Definition then_ {A : Type} (p : outcome A) (h : interceptor A) : outcome A :=
  match p with
  | Fulfilled a =>
      match fulfilled h with Some f => f a | None => Fulfilled a end
  | Rejected e =>
      match rejected h with Some r => r e | None => Rejected e end
  end.

(** A whole chain of [then] links, first link first. *)
Definition through {A : Type} (chain : list (interceptor A)) (p : outcome A)
  : outcome A :=
  fold_left then_ chain p.

(** A client instance: a mutable object holding its defaults and the two
    interceptor managers, each in order of registration. *)
Record instance : Type := Instance {
  defaults : config;
  request_interceptors : list (interceptor config);
  response_interceptors : list (interceptor value)
}.

(** [axios.create(c)]. *)
Definition create (c : config) : instance :=
  Instance (mergeConfig library_defaults c) [] [].

(** [inst.interceptors.response.use(f, r)]. *)
Definition use_response (inst : instance) (h : interceptor value) : instance :=
  Instance (defaults inst) (request_interceptors inst)
           (response_interceptors inst ++ [h]).

(** [inst.interceptors.request.use(f, r)]. *)
Definition use_request (inst : instance) (h : interceptor config) : instance :=
  Instance (defaults inst) (request_interceptors inst ++ [h])
           (response_interceptors inst).

(** Assignments to [inst.defaults]. *)
Definition set_defaults (inst : instance) (f : config -> config) : instance :=
  Instance (f (defaults inst)) (request_interceptors inst)
           (response_interceptors inst).

(** [c.timeout = t]. *)
Definition with_timeout (t : value) (c : config) : config :=
  {| method := method c; baseURL := baseURL c; url := url c;
     params := params c; data := data c; timeout := t |}.

(** [c.params = p]. *)
Definition with_params (p : value) (c : config) : config :=
  {| method := method c; baseURL := baseURL c; url := url c;
     params := p; data := data c; timeout := timeout c |}.

(** The config [inst.request(c)] starts from: merged over the defaults,
    with the method defaulting to the instance's and then to GET. *)
Definition request_config (inst : instance) (c : config) : config :=
  let m := mergeConfig (defaults inst) c in
  {| method := Some (match method m with
                     | Some x => x
                     | None => match method (defaults inst) with
                               | Some x => x
                               | None => GET
                               end
                     end);
     baseURL := baseURL m; url := url m; params := params m;
     data := data m; timeout := timeout m |}.

(** The config that reaches the transport: the request interceptors run
    on it, last registered first. *)
Definition outgoing (inst : instance) (c : config) : outcome config :=
  through (rev (request_interceptors inst)) (Fulfilled (request_config inst c)).

(** What the transport answers. *)
Record response : Type := Response {
  r_data : value;
  r_status : Z;
  r_statusText : string;
  r_headers : value
}.

(** The response object handed to the response interceptors: the body
    under [data], next to the status and header wrapper. *)
Definition response_object (r : response) : value :=
  VObj [("data", r_data r);
        ("status", VNum (r_status r));
        ("statusText", VStr (r_statusText r));
        ("headers", r_headers r)].

(** How an exchange ends at the transport: with a response, or with the
    error object the transport raises (a timeout, a connection error, a
    status the client does not accept). *)
Inductive exchange : Type :=
| Success (res : response)
| Failure (err : value).

Definition arrival (x : exchange) : outcome value :=
  match x with
  | Success res => Fulfilled (response_object res)
  | Failure err => Rejected err
  end.

(** The promise a request returned: pending with the response chain that
    was captured when the request was made, or settled. *)
Inductive promise : Type :=
| Pending (chain : list (interceptor value))
| Settled (r : outcome value).

(** The event loop as far as requests go: the configs handed to the
    transport (tagged with the number of the call that sent them, oldest
    first), the promises returned so far, and the number the next call
    gets. *)
Record runtime : Type := Runtime {
  wire : list (nat * config);
  promises : gmap nat promise;
  next_id : nat
}.

(** [inst.request(c)]: the chains are read off the instance when the call
    is made; if the request interceptors let the config through, it goes
    to the transport once and the returned promise waits for the reply;
    if they reject, nothing is sent and the rejection runs down the
    response chain. *)
Definition request (inst : instance) (c : config) (rt : runtime)
  : nat * runtime :=
  let id := next_id rt in
  match outgoing inst c with
  | Fulfilled sent =>
      (id, Runtime (wire rt ++ [(id, sent)])
                   (<[id := Pending (response_interceptors inst)]> (promises rt))
                   (S id))
  | Rejected e =>
      (id, Runtime (wire rt)
                   (<[id := Settled (through (response_interceptors inst)
                                             (Rejected e))]> (promises rt))
                   (S id))
  end.

(** [inst.get(url, c)]: the body is whatever [c.data] is. *)
Definition get (inst : instance) (u : value) (c : config)
  : runtime -> nat * runtime :=
  request inst (mergeConfig c
    {| method := Some GET; baseURL := VUndefined; url := u;
       params := VUndefined; data := data c; timeout := VUndefined |}).

(** [inst.post(url, d, c)]. *)
Definition post (inst : instance) (u d : value) (c : config)
  : runtime -> nat * runtime :=
  request inst (mergeConfig c
    {| method := Some POST; baseURL := VUndefined; url := u;
       params := VUndefined; data := d; timeout := VUndefined |}).

(** The transport finishes the exchange of call [id]: a pending promise
    settles through the chain it captured; anything else is left alone. *)
Definition reply (id : nat) (x : exchange) (rt : runtime) : runtime :=
  match promises rt !! id with
  | Some (Pending chain) =>
      Runtime (wire rt)
              (<[id := Settled (through chain (arrival x))]> (promises rt))
              (next_id rt)
  | _ => rt
  end.

End Axios.

Import Axios.

(* ===================================================================== *)
(** ** The module: src/frontend/src/api/index.js *)
(* ===================================================================== *)

Module Api.

(** [import.meta?.env?.VITE_API_URL]. *)
Definition VITE_API_URL (import_meta : value) : value :=
  opt_member (opt_member import_meta "env") "VITE_API_URL".

(** [const api = axios.create({ baseURL: ... || 'http://localhost:8000',
    timeout: 30000 })] followed by [api.interceptors.response.use(
    (res) => res.data, (err) => Promise.reject(err))]. *)
Definition api (import_meta : value) : instance :=
  use_response
    (create {| method := None;
               baseURL := or (VITE_API_URL import_meta)
                             (VStr "http://localhost:8000");
               url := VUndefined; params := VUndefined; data := VUndefined;
               timeout := VNum 30000 |})
    (Interceptor (Some (fun res => member res "data"))
                 (Some (fun err => Rejected err))).

(** What the module's code runs in: the one client object that [api]
    names (shared by the helpers and by whoever imports the default
    export) and the event loop. *)
Record world : Type := World {
  shared : instance;
  loop : runtime
}.

(** Loading the module. *)
Definition load (import_meta : value) : world :=
  World (api import_meta) (Runtime [] ∅ 0).

(** A method call on the shared client: what the call returns (the
    number of the promise) and the world it leaves. *)
Definition on_api (f : instance -> runtime -> nat * runtime) (w : world)
  : outcome nat * world :=
  let r := f (shared w) (loop w) in (Fulfilled r.1, World (shared w) r.2).

(** [(userId, days) => api.get(`/api/users/${userId}/dashboard`,
    { params: { days } })].  The template literal is evaluated first:
    if [userId] has no string form the call throws there, and the client
    is never reached. *)
Definition getDashboardData (userId days : value) (w : world)
  : outcome nat * world :=
  match to_string userId with
  | Fulfilled id =>
      on_api (fun api =>
        get api (VStr ("/api/users/" +:+ id +:+ "/dashboard"))
            {| method := None; baseURL := VUndefined; url := VUndefined;
               params := VObj [("days", days)];
               data := VUndefined; timeout := VUndefined |}) w
  | Rejected e => (Rejected e, w)
  end.

(** [(text, userId) => api.post('/api/analysis/emotion',
    { text, user_id: userId })]. *)
Definition analyzeEmotion (text userId : value)
  : world -> outcome nat * world :=
  on_api (fun api =>
    post api (VStr "/api/analysis/emotion")
         (VObj [("text", text); ("user_id", userId)])
         empty_config).

(** The calls that are turns of the event loop: a call of a helper that
    gets as far as the client, or a request a caller sends through the
    default export, the client itself.  A call of [getDashboardData]
    whose [userId] has no string form throws before that and leaves the
    world as it is (see [getDashboardData]); it is no turn of the loop,
    and the type leaves it out. *)
Inductive invocation : Type :=
| GetDashboardData (userId days : value) {has_form : Stringifies userId}
| AnalyzeEmotion (text userId : value)
| ApiRequest (c : config).

(** ... or to change the client: attach an interceptor, assign defaults. *)
Inductive mutation : Type :=
| UseResponse (h : interceptor value)
| UseRequest (h : interceptor config)
| SetDefaults (f : config -> config).

(** One turn of the event loop. *)
Inductive event : Type :=
| Invoke (i : invocation)
| Mutate (m : mutation)
| Reply (id : nat) (x : exchange).

Definition invoke (i : invocation) : world -> outcome nat * world :=
  match i with
  | GetDashboardData userId days => getDashboardData userId days
  | AnalyzeEmotion text userId => analyzeEmotion text userId
  | ApiRequest c => on_api (fun api => request api c)
  end.

Definition mutate (m : mutation) (inst : instance) : instance :=
  match m with
  | UseResponse h => use_response inst h
  | UseRequest h => use_request inst h
  | SetDefaults f => set_defaults inst f
  end.

Definition step (w : world) (e : event) : world :=
  match e with
  | Invoke i => (invoke i w).2
  | Mutate m => World (mutate m (shared w)) (loop w)
  | Reply id x => World (shared w) (reply id x (loop w))
  end.

Definition run (w : world) (trace : list event) : world :=
  fold_left step trace w.

(** A trace in which no caller changes the client. *)
Definition untouched (trace : list event) : bool :=
  forallb (fun e => match e with Mutate _ => false | _ => true end) trace.

(** A trace in which call [id] gets no reply. *)
Definition unanswered (id : nat) (trace : list event) : bool :=
  forallb (fun e => match e with
                    | Reply id' _ => negb (Nat.eqb id' id)
                    | _ => true
                    end) trace.

(** A call through one of the two helpers. *)
Definition helper (i : invocation) : bool :=
  match i with ApiRequest _ => false | _ => true end.

(** The config a call hands to the client's [request]. *)
Definition asked (i : invocation) : config :=
  match i with
  | GetDashboardData userId days =>
      {| method := Some GET; baseURL := VUndefined;
         url := VStr ("/api/users/" +:+ string_form userId +:+ "/dashboard");
         params := VObj [("days", days)];
         data := VUndefined; timeout := VUndefined |}
  | AnalyzeEmotion text userId =>
      {| method := Some POST; baseURL := VUndefined;
         url := VStr "/api/analysis/emotion";
         params := VUndefined;
         data := VObj [("text", text); ("user_id", userId)];
         timeout := VUndefined |}
  | ApiRequest c => c
  end.

(** The number of the call an invocation in [w] makes, the promise that
    call has in [w], and the config it put on the wire. *)
Definition upcoming (w : world) : nat := next_id (loop w).

Definition promise_of (w : world) (id : nat) : option promise :=
  promises (loop w) !! id.

Definition sent_by (w : world) (id : nat) : list config :=
  omap (fun e : nat * config => if Nat.eqb e.1 id then Some e.2 else None)
       (wire (loop w)).

(** Numbers not yet given out have no promise and nothing on the wire. *)
Definition tidy (w : world) : Prop :=
  forall id, upcoming w <= id -> promise_of w id = None /\ sent_by w id = [].

(** The calls of a trace, oldest first. *)
Definition calls (trace : list event) : list invocation :=
  omap (fun e => match e with Invoke i => Some i | _ => None end) trace.

End Api.

Import Api.

(* ===================================================================== *)
(** ** Reading a request path *)
(* ===================================================================== *)

Module Url.

(** These functions read a request path as it is written (RFC 3986,
    section 3), character by character; they are reading aids for the
    statements below, not code of the module, and they do none of the
    rewriting a URL parser may add (dot segments, backslashes, escapes).

    The path of a reference: what stands before the first [?] or [#]. *)
Fixpoint path (u : string) : string :=
  match u with
  | EmptyString => EmptyString
  | String a rest =>
      if Ascii.eqb a "?"%char || Ascii.eqb a "#"%char then EmptyString
      else String a (path rest)
  end.

(** The segments of a path: the pieces between the [/]. *)
Fixpoint segments_from (seg p : string) : list string :=
  match p with
  | EmptyString => [seg]
  | String a rest =>
      if Ascii.eqb a "/"%char then seg :: segments_from EmptyString rest
      else segments_from (seg +:+ String a EmptyString) rest
  end.

Definition segments (p : string) : list string := segments_from EmptyString p.

(** Whether every character of a string passes a test. *)
Fixpoint all_chars (f : ascii -> bool) (s : string) : bool :=
  match s with
  | EmptyString => true
  | String a rest => f a && all_chars f rest
  end.

(** The characters that end a segment or the path. *)
Definition slash (a : ascii) : bool := Ascii.eqb a "/"%char.
Definition mark (a : ascii) : bool :=
  Ascii.eqb a "?"%char || Ascii.eqb a "#"%char.

(** A string without [/], [?] and [#]. *)
Definition plain (s : string) : bool :=
  all_chars (fun a => negb (slash a) && negb (mark a)) s.

End Url.

(* ===================================================================== *)
(** ** Running the module: basic facts *)
(* ===================================================================== *)

Section Basics.

Implicit Types (w : world) (i : invocation) (tr : list event) (id : nat).

(** Both helpers are calls of the shared client's [request]. *)
Lemma invoke_request i w :
  invoke i w = on_api (fun api => request api (asked i)) w.
Proof.
  destruct i as [userId days has_form| |]; [|done..].
  unfold Stringifies in has_form. simpl.
  unfold getDashboardData, string_form.
  by destruct (to_string userId).
Qed.

(** A call of [getDashboardData] whose id has the string form [s] is a
    request on the shared client; one whose id has none throws. *)
Lemma getDashboardData_returns userId days s w :
  to_string userId = Fulfilled s ->
  getDashboardData userId days w =
  invoke (ApiRequest
            {| method := Some GET; baseURL := VUndefined;
               url := VStr ("/api/users/" +:+ s +:+ "/dashboard");
               params := VObj [("days", days)];
               data := VUndefined; timeout := VUndefined |}) w.
Proof. intros E. unfold getDashboardData. by rewrite E. Qed.

Lemma getDashboardData_throws userId days e w :
  to_string userId = Rejected e ->
  getDashboardData userId days w = (Rejected e, w).
Proof. intros E. unfold getDashboardData. by rewrite E. Qed.

Lemma to_string_safe_integer n :
  safe_integer n = true -> to_string (VNum n) = Fulfilled (pretty n).
Proof. intros H. simpl. unfold number_to_string. by rewrite H. Qed.

Lemma run_app w tr1 tr2 : run w (tr1 ++ tr2) = run (run w tr1) tr2.
Proof. apply fold_left_app. Qed.

Lemma run_cons w e tr : run w (e :: tr) = run (step w e) tr.
Proof. done. Qed.

Lemma untouched_app tr1 tr2 :
  untouched (tr1 ++ tr2) = untouched tr1 && untouched tr2.
Proof. apply forallb_app. Qed.

(** Calls and replies leave the client object as it is. *)
Lemma step_shared w e :
  untouched [e] = true -> shared (step w e) = shared w.
Proof.
  destruct e as [i|m|id x]; [|done|done]. intros _. simpl.
  by rewrite invoke_request.
Qed.

Lemma run_shared tr : forall w,
  untouched tr = true -> shared (run w tr) = shared w.
Proof.
  induction tr as [|e tr IH]; intros w H; [done|].
  simpl in H. apply andb_true_iff in H as [He Htr].
  rewrite run_cons, IH by done. apply step_shared. simpl. by rewrite He.
Qed.

(** Call numbers only grow. *)
Lemma upcoming_invoke i w : upcoming (invoke i w).2 = S (upcoming w).
Proof.
  rewrite invoke_request. unfold upcoming, on_api, request. simpl.
  by destruct (outgoing _ _).
Qed.

Lemma upcoming_reply id x w :
  upcoming (World (shared w) (reply id x (loop w))) = upcoming w.
Proof.
  unfold upcoming, reply. simpl.
  by destruct (promises (loop w) !! id) as [[]|].
Qed.

Lemma upcoming_step w e : upcoming w <= upcoming (step w e).
Proof.
  destruct e as [i|m|id x]; simpl.
  - rewrite upcoming_invoke. lia.
  - done.
  - by rewrite upcoming_reply.
Qed.

Lemma upcoming_run tr : forall w, upcoming w <= upcoming (run w tr).
Proof.
  induction tr as [|e tr IH]; intros w; [done|].
  rewrite run_cons. etrans; [apply upcoming_step|apply IH].
Qed.

End Basics.

(* ===================================================================== *)
(** ** Invariants of the event loop *)
(* ===================================================================== *)

Section Loop.

Implicit Types (w : world) (i : invocation) (tr : list event) (id : nat).

Lemma tidy_load import_meta : tidy (load import_meta).
Proof. intros id _. split; [apply lookup_empty|done]. Qed.

(** What a call does, whatever state the client is in. *)
Lemma invoke_spec i w :
  let id := upcoming w in
  let w' := (invoke i w).2 in
  shared w' = shared w /\ upcoming w' = S id /\
  match outgoing (shared w) (asked i) with
  | Fulfilled sent =>
      wire (loop w') = wire (loop w) ++ [(id, sent)] /\
      promises (loop w') =
        <[id := Pending (response_interceptors (shared w))]> (promises (loop w))
  | Rejected e =>
      wire (loop w') = wire (loop w) /\
      promises (loop w') =
        <[id := Settled (through (response_interceptors (shared w))
                                 (Rejected e))]> (promises (loop w))
  end.
Proof.
  rewrite invoke_request. unfold upcoming, on_api, request. simpl.
  by destruct (outgoing _ _).
Qed.

(** What a reply does. *)
Lemma reply_spec id x w :
  let w' := step w (Reply id x) in
  shared w' = shared w /\ upcoming w' = upcoming w /\
  wire (loop w') = wire (loop w) /\
  promises (loop w') =
    match promise_of w id with
    | Some (Pending chain) =>
        <[id := Settled (through chain (arrival x))]> (promises (loop w))
    | _ => promises (loop w)
    end.
Proof.
  unfold promise_of, upcoming, reply. simpl. unfold reply.
  by destruct (promises (loop w) !! id) as [[]|].
Qed.

Lemma sent_by_wire w w' id :
  wire (loop w') = wire (loop w) -> sent_by w' id = sent_by w id.
Proof. unfold sent_by. by intros ->. Qed.

Lemma tidy_step w e : tidy w -> tidy (step w e).
Proof.
  intros T id Hid. destruct e as [i|m|id' x].
  - destruct (invoke_spec i w) as (Hs & Hn & H). simpl in *.
    rewrite Hn in Hid. destruct (T id ltac:(lia)) as [Tp Ts].
    unfold promise_of in *.
    destruct (outgoing _ _); destruct H as [Hw Hp]; rewrite Hp;
      (split; [by rewrite lookup_insert_ne by lia|]).
    + unfold sent_by in *. rewrite Hw, omap_app, Ts. simpl.
      destruct (Nat.eqb_spec (upcoming w) id); [lia|done].
    + by rewrite (sent_by_wire w).
  - apply (T id Hid).
  - destruct (reply_spec id' x w) as (Hs & Hn & Hw & Hp).
    rewrite Hn in Hid. destruct (T id Hid) as [Tp Ts].
    split; [|by rewrite (sent_by_wire w)].
    unfold promise_of in *. rewrite Hp.
    destruct (promises (loop w) !! id') as [[chain|r]|] eqn:E; try done.
    rewrite lookup_insert_ne; [done|]. intros ->. congruence.
Qed.

Lemma tidy_run tr : forall w, tidy w -> tidy (run w tr).
Proof.
  induction tr as [|e tr IH]; intros w T; [done|].
  rewrite run_cons. by apply IH, tidy_step.
Qed.

(** A promise is touched by nothing but a reply to its own call. *)
Lemma promise_step w e id p :
  id < upcoming w -> unanswered id [e] = true ->
  promise_of w id = Some p -> promise_of (step w e) id = Some p.
Proof.
  intros Hid Hu Hp. destruct e as [i|m|id' x].
  - destruct (invoke_spec i w) as (_ & _ & H). simpl in *.
    unfold promise_of in *.
    destruct (outgoing _ _); destruct H as [_ ->];
      by rewrite lookup_insert_ne by lia.
  - done.
  - destruct (reply_spec id' x w) as (_ & _ & _ & H).
    simpl in Hu. rewrite andb_true_r in Hu.
    apply negb_true_iff, Nat.eqb_neq in Hu.
    unfold promise_of in *. rewrite H.
    destruct (promises (loop w) !! id') as [[chain|r]|]; try done.
    by rewrite lookup_insert_ne.
Qed.

Lemma promise_run tr : forall w id p,
  id < upcoming w -> unanswered id tr = true ->
  promise_of w id = Some p -> promise_of (run w tr) id = Some p.
Proof.
  induction tr as [|e tr IH]; intros w id p Hid Hu Hp; [done|].
  simpl in Hu. apply andb_true_iff in Hu as [He Htr].
  rewrite run_cons. apply IH; [|done|].
  - eapply Nat.lt_le_trans; [done|apply upcoming_step].
  - apply promise_step; [done| |done]. simpl. by rewrite He.
Qed.

(** A settled promise never changes again. *)
Lemma settled_step w e id r :
  id < upcoming w ->
  promise_of w id = Some (Settled r) ->
  promise_of (step w e) id = Some (Settled r).
Proof.
  intros Hid Hp. destruct e as [i|m|id' x].
  - apply promise_step; done.
  - done.
  - destruct (reply_spec id' x w) as (_ & _ & _ & H).
    unfold promise_of in *. rewrite H.
    destruct (decide (id' = id)) as [->|Hne].
    + by rewrite Hp.
    + destruct (promises (loop w) !! id') as [[chain|r']|]; try done.
      by rewrite lookup_insert_ne.
Qed.

Lemma settled_run tr : forall w id r,
  id < upcoming w ->
  promise_of w id = Some (Settled r) ->
  promise_of (run w tr) id = Some (Settled r).
Proof.
  induction tr as [|e tr IH]; intros w id r Hid Hp; [done|].
  rewrite run_cons. apply IH.
  - eapply Nat.lt_le_trans; [done|apply upcoming_step].
  - by apply settled_step.
Qed.

(** Later turns put nothing on the wire for an earlier call. *)
Lemma sent_by_step w e id :
  id < upcoming w -> sent_by (step w e) id = sent_by w id.
Proof.
  intros Hid. destruct e as [i|m|id' x].
  - destruct (invoke_spec i w) as (_ & _ & H). simpl in *.
    destruct (outgoing _ _); destruct H as [Hw _].
    + unfold sent_by. rewrite Hw, omap_app. simpl.
      destruct (Nat.eqb_spec (upcoming w) id); [lia|].
      by rewrite app_nil_r.
    + by apply sent_by_wire.
  - done.
  - destruct (reply_spec id' x w) as (_ & _ & Hw & _).
    by apply sent_by_wire.
Qed.

Lemma sent_by_run tr : forall w id,
  id < upcoming w -> sent_by (run w tr) id = sent_by w id.
Proof.
  induction tr as [|e tr IH]; intros w id Hid; [done|].
  rewrite run_cons, IH, sent_by_step; [done..|].
  eapply Nat.lt_le_trans; [done|apply upcoming_step].
Qed.

(** A call answered in the next turn, whatever state the client is in:
    what the request interceptors let through is sent, once, and the
    promise settles through the response chain the client had. *)
Lemma call_answered w i x :
  tidy w ->
  let final := run w [Invoke i; Reply (upcoming w) x] in
  match outgoing (shared w) (asked i) with
  | Fulfilled sent =>
      sent_by final (upcoming w) = [sent] /\
      promise_of final (upcoming w) =
        Some (Settled (through (response_interceptors (shared w)) (arrival x)))
  | Rejected e =>
      sent_by final (upcoming w) = [] /\
      promise_of final (upcoming w) =
        Some (Settled (through (response_interceptors (shared w)) (Rejected e)))
  end.
Proof.
  intros T final.
  destruct (T (upcoming w)) as [_ Ts]; [done|].
  destruct (invoke_spec i w) as (_ & Hn & H).
  destruct (reply_spec (upcoming w) x (step w (Invoke i))) as (_ & _ & Hw & R).
  change (run w [Invoke i; Reply (upcoming w) x])
    with (step (step w (Invoke i)) (Reply (upcoming w) x)) in final.
  unfold promise_of, sent_by in *. subst final. rewrite Hw, R. simpl in *.
  destruct (outgoing (shared w) (asked i)) as [sent|e];
    destruct H as [Hw' Hp]; rewrite Hp, Hw', lookup_insert_eq; simpl;
    rewrite ?lookup_insert_eq.
  - rewrite omap_app, Ts. simpl. by rewrite Nat.eqb_refl.
  - by rewrite Ts.
Qed.

End Loop.

(* ===================================================================== *)
(** ** The client as the module builds it *)
(* ===================================================================== *)

Section Client.

Implicit Types (w : world) (i : invocation) (tr : list event) (id : nat).
Implicit Types (import_meta : value).

(** The module registers no request interceptor: every config reaches the
    transport as [request] prepared it. *)
Lemma api_outgoing import_meta c :
  outgoing (api import_meta) c = Fulfilled (request_config (api import_meta) c).
Proof. done. Qed.

(** The module's response chain: the body on success, the same error on
    failure. *)
Lemma api_through import_meta x :
  through (response_interceptors (api import_meta)) (arrival x) =
  match x with
  | Success res => Fulfilled (r_data res)
  | Failure err => Rejected err
  end.
Proof. by destruct x. Qed.

(** A truthy override is the base URL. *)
Lemma api_base_url_override import_meta :
  truthy (VITE_API_URL import_meta) = true ->
  baseURL (defaults (api import_meta)) = VITE_API_URL import_meta.
Proof.
  intros T. simpl. unfold or. rewrite T.
  by destruct (VITE_API_URL import_meta).
Qed.

Example api_base_url_from_env :
  baseURL (defaults (api (VObj [("env",
     VObj [("VITE_API_URL", VStr "https://api.example.org")])])))
  = VStr "https://api.example.org".
Proof. reflexivity. Qed.

(** A call made while the client is as the module built it. *)
Lemma api_call import_meta tr i :
  untouched tr = true ->
  let w := run (load import_meta) tr in
  let w' := step w (Invoke i) in
  shared w' = api import_meta /\
  upcoming w' = S (upcoming w) /\
  wire (loop w') =
    wire (loop w) ++ [(upcoming w, request_config (api import_meta) (asked i))] /\
  sent_by w' (upcoming w) = [request_config (api import_meta) (asked i)] /\
  promise_of w' (upcoming w) =
    Some (Pending (response_interceptors (api import_meta))).
Proof.
  intros Hq w w'.
  assert (Hs : shared w = api import_meta) by by apply run_shared.
  assert (T : tidy w) by apply tidy_run, tidy_load.
  destruct (invoke_spec i w) as (Hs' & Hn & H).
  rewrite Hs, api_outgoing in H. destruct H as [Hw Hp].
  destruct (T (upcoming w)) as [_ Ts]; [done|].
  split_and!; [by rewrite <- Hs, <- Hs'|done|done| |].
  - unfold sent_by in *. subst w'. simpl. rewrite Hw, omap_app, Ts. simpl.
    by rewrite Nat.eqb_refl.
  - unfold promise_of. subst w'. simpl. rewrite Hp. apply lookup_insert_eq.
Qed.

(** The whole life of one call among others: made after [before], while
    [between] goes on, answered with [x], followed by [after]. *)
Lemma api_exchange import_meta before between after i x :
  untouched (before ++ between ++ after) = true ->
  let id := upcoming (run (load import_meta) before) in
  unanswered id between = true ->
  let final :=
    run (load import_meta)
        (before ++ Invoke i :: between ++ Reply id x :: after) in
  shared final = api import_meta /\
  sent_by final id = [request_config (api import_meta) (asked i)] /\
  promise_of final id =
    Some (Settled (through (response_interceptors (api import_meta))
                           (arrival x))).
Proof.
  intros Hq id Hu final.
  rewrite !untouched_app in Hq.
  apply andb_true_iff in Hq as [Hb Hq]. apply andb_true_iff in Hq as [Hm Ha].
  destruct (api_call import_meta before i Hb) as (Hs & Hn & _ & Hsent & Hp).
  set (w := run (load import_meta) before) in *.
  set (w1 := step w (Invoke i)) in *.
  assert (Hid : id < upcoming w1) by (rewrite Hn; unfold id; lia).
  set (w2 := run w1 between).
  assert (Hid2 : id < upcoming w2)
    by (eapply Nat.lt_le_trans; [done|apply upcoming_run]).
  set (w3 := step w2 (Reply id x)).
  assert (E : final = run w3 after).
  { unfold final. rewrite run_app, run_cons.
    change (step (run (load import_meta) before) (Invoke i)) with w1.
    by rewrite run_app, run_cons. }
  assert (Hid3 : id < upcoming w3)
    by (eapply Nat.lt_le_trans; [done|apply upcoming_step]).
  rewrite E. split_and!.
  - rewrite run_shared by done. unfold w3. simpl.
    unfold w2. by rewrite run_shared.
  - rewrite sent_by_run by done. unfold w3. rewrite sent_by_step by done.
    unfold w2. by rewrite sent_by_run.
  - apply settled_run; [done|].
    destruct (reply_spec id x w2) as (_ & _ & _ & H).
    unfold promise_of at 1. fold w3 in H. rewrite H.
    unfold w2 at 1. rewrite (promise_run between w1 id _ Hid Hu Hp).
    apply lookup_insert_eq.
Qed.

(** The same for a call that is answered in the next turn. *)
Lemma api_answered import_meta tr i x :
  untouched tr = true ->
  let w := run (load import_meta) tr in
  let final := run w [Invoke i; Reply (upcoming w) x] in
  sent_by final (upcoming w) = [request_config (api import_meta) (asked i)] /\
  promise_of final (upcoming w) =
    Some (Settled (through (response_interceptors (api import_meta))
                           (arrival x))).
Proof.
  intros Hq w final.
  destruct (api_exchange import_meta tr [] [] i x) as (_ & Hsent & Hp).
  - by rewrite !untouched_app, Hq.
  - done.
  - unfold final, w. by rewrite <- run_app.
Qed.

(** A call of [getDashboardData] whose id has the string form [s], made
    while the client is as the module built it. *)
Lemma getDashboardData_call import_meta tr userId days s :
  untouched tr = true ->
  to_string userId = Fulfilled s ->
  let w := run (load import_meta) tr in
  let sent :=
    {| method := Some GET;
       baseURL := baseURL (defaults (api import_meta));
       url := VStr ("/api/users/" +:+ s +:+ "/dashboard");
       params := VObj [("days", days)];
       data := VUndefined;
       timeout := VNum 30000 |} in
  (getDashboardData userId days w).1 = Fulfilled (upcoming w) /\
  wire (loop (getDashboardData userId days w).2) =
    wire (loop w) ++ [(upcoming w, sent)] /\
  sent_by (getDashboardData userId days w).2 (upcoming w) = [sent].
Proof.
  intros Hq E w sent. rewrite (getDashboardData_returns _ _ _ _ E).
  match goal with |- context [invoke (ApiRequest ?c)] => set (c0 := c) end.
  destruct (api_call import_meta tr (ApiRequest c0) Hq)
    as (_ & _ & Hw & Hs & _).
  split_and!; [|exact Hw|exact Hs].
  simpl. unfold on_api, request. simpl. by destruct (outgoing _ _).
Qed.

End Client.

(* ===================================================================== *)
(** ** Results and errors: what the caller's promise settles with *)
(* ===================================================================== *)

(** Claim C1.  While the client is as the module built it, a request made
    through either helper (or through the client directly) whose exchange
    succeeds resolves the caller's promise with the response body itself:
    the response interceptor takes the response object, with its status
    and headers, to its [data] field, and nothing else touches the value. *)
Theorem success_resolves_with_body import_meta tr i res :
  untouched tr = true ->
  let w := run (load import_meta) tr in
  through (response_interceptors (shared w)) (Fulfilled (response_object res))
    = Fulfilled (r_data res) /\
  promise_of (run w [Invoke i; Reply (upcoming w) (Success res)]) (upcoming w)
    = Some (Settled (Fulfilled (r_data res))).
Proof.
  intros Hq w. split.
  - unfold w. by rewrite run_shared.
  - destruct (api_answered import_meta tr i (Success res) Hq) as [_ H].
    unfold w. by rewrite H, api_through.
Qed.

Lemma success_resolves_with_body_witness :
  let import_meta :=
    VObj [("env", VObj [("VITE_API_URL", VStr "https://api.example.org")])] in
  let tr := [Invoke (AnalyzeEmotion (VStr "I feel great") (VNum 42))] in
  let body := VObj [("mood", VStr "calm"); ("score", VNum 3)] in
  untouched tr = true /\
  promise_of
    (run (run (load import_meta) tr)
         [Invoke (GetDashboardData (VNum 42) (VNum 7));
          Reply 1 (Success (Response body 200 "OK" (VObj [])))]) 1
    = Some (Settled (Fulfilled body)).
Proof.
  intros import_meta tr body. split; [reflexivity|].
  apply (success_resolves_with_body import_meta tr
           (GetDashboardData (VNum 42) (VNum 7))
           (Response body 200 "OK" (VObj []))).
  reflexivity.
Defined.

(** Claim C2.  While the client is as the module built it, a request made
    through either helper whose exchange fails leaves the caller's promise
    rejected with the very error the transport raised, whatever it is
    (timeout, connection error, refused status); the request is not sent
    again. *)
Theorem failure_rejects_with_same_error import_meta tr i err :
  untouched tr = true ->
  let w := run (load import_meta) tr in
  let final := run w [Invoke i; Reply (upcoming w) (Failure err)] in
  promise_of final (upcoming w) = Some (Settled (Rejected err)) /\
  length (sent_by final (upcoming w)) = 1.
Proof.
  intros Hq w final.
  destruct (api_answered import_meta tr i (Failure err) Hq) as [Hs H].
  unfold final, w. split; [by rewrite H, api_through|]. by rewrite Hs.
Qed.

Lemma failure_rejects_with_same_error_witness :
  let tr := [Invoke (GetDashboardData (VNum 42) (VNum 7));
             Reply 0 (Success (Response VNull 200 "OK" (VObj [])))] in
  let err := VObj [("code", VStr "ECONNABORTED");
                   ("message", VStr "timeout of 30000ms exceeded")] in
  let final :=
    run (run (load VUndefined) tr)
        [Invoke (AnalyzeEmotion (VStr "I feel great") (VNum 42));
         Reply 1 (Failure err)] in
  untouched tr = true /\
  promise_of final 1 = Some (Settled (Rejected err)) /\
  length (sent_by final 1) = 1.
Proof.
  intros tr err final. split; [reflexivity|].
  apply (failure_rejects_with_same_error VUndefined tr
           (AnalyzeEmotion (VStr "I feel great") (VNum 42)) err).
  reflexivity.
Defined.

(* ===================================================================== *)
(** ** The two requests *)
(* ===================================================================== *)

(** Claim C3, as the code has it.  While the client is as the module
    built it, [getDashboardData(userId, days)] for a [userId] that has a
    string form [s] returns a promise and hands the transport one config
    and only one: a GET for [/api/users/s/dashboard] whose [params] are
    [{ days }] and whose [data] is absent; the reply, whatever it is, puts
    nothing more on the wire. *)
Theorem getDashboardData_request import_meta tr userId days s :
  untouched tr = true ->
  to_string userId = Fulfilled s ->
  let w := run (load import_meta) tr in
  let called := (getDashboardData userId days w).2 in
  (getDashboardData userId days w).1 = Fulfilled (upcoming w) /\
  wire (loop called) =
    wire (loop w) ++
    [(upcoming w,
      {| method := Some GET;
         baseURL := baseURL (defaults (api import_meta));
         url := VStr ("/api/users/" +:+ s +:+ "/dashboard");
         params := VObj [("days", days)];
         data := VUndefined;
         timeout := VNum 30000 |})] /\
  forall x, wire (loop (step called (Reply (upcoming w) x))) = wire (loop called).
Proof.
  intros Hq E w called.
  destruct (getDashboardData_call import_meta tr userId days s Hq E)
    as (Hr & Hw & _).
  split_and!; [exact Hr|exact Hw|]. intros x.
  by destruct (reply_spec (upcoming w) x called) as (_ & _ & H & _).
Qed.

Lemma getDashboardData_request_witness :
  untouched [] = true /\
  to_string (VNum 42) = Fulfilled "42" /\
  wire (loop (getDashboardData (VNum 42) (VNum 7) (load VUndefined)).2) =
    [(0, {| method := Some GET;
            baseURL := VStr "http://localhost:8000";
            url := VStr "/api/users/42/dashboard";
            params := VObj [("days", VNum 7)];
            data := VUndefined;
            timeout := VNum 30000 |})].
Proof.
  split_and!; [reflexivity|reflexivity|].
  apply (getDashboardData_request VUndefined [] (VNum 42) (VNum 7) "42");
    reflexivity.
Defined.

(** Claim C3, as stated, fails for a [userId] without a string form: the
    object [{ toString: 1 }] hides the inherited [toString] behind
    something that cannot be called, the template literal throws a
    TypeError, and [getDashboardData] ends there: no promise, no
    request. *)
Lemma getDashboardData_throws_without_request :
  let userId := VObj [("toString", VNum 1)] in
  let w := load VUndefined in
  getDashboardData userId (VNum 7) w = (Rejected TypeError, w) /\
  wire (loop (getDashboardData userId (VNum 7) w).2) = [].
Proof. split; reflexivity. Qed.

(** Claim C4.  While the client is as the module built it,
    [analyzeEmotion(text, userId)] hands the transport one config and only
    one: a POST for the fixed path [/api/analysis/emotion] whose [data] is
    the object [{ text, user_id: userId }] holding the two arguments as
    they were given; the reply puts nothing more on the wire. *)
Theorem analyzeEmotion_request import_meta tr text userId :
  untouched tr = true ->
  let w := run (load import_meta) tr in
  let called := (analyzeEmotion text userId w).2 in
  wire (loop called) =
    wire (loop w) ++
    [(upcoming w,
      {| method := Some POST;
         baseURL := baseURL (defaults (api import_meta));
         url := VStr "/api/analysis/emotion";
         params := VUndefined;
         data := VObj [("text", text); ("user_id", userId)];
         timeout := VNum 30000 |})] /\
  forall x, wire (loop (step called (Reply (upcoming w) x))) = wire (loop called).
Proof.
  intros Hq w called.
  destruct (api_call import_meta tr (AnalyzeEmotion text userId) Hq)
    as (_ & _ & Hw & _).
  split; [exact Hw|]. intros x.
  by destruct (reply_spec (upcoming w) x called) as (_ & _ & H & _).
Qed.

Lemma analyzeEmotion_request_witness :
  untouched [] = true /\
  wire (loop (analyzeEmotion (VStr "I feel great") (VNum 42)
                             (load VUndefined)).2) =
    [(0, {| method := Some POST;
            baseURL := VStr "http://localhost:8000";
            url := VStr "/api/analysis/emotion";
            params := VUndefined;
            data := VObj [("text", VStr "I feel great"); ("user_id", VNum 42)];
            timeout := VNum 30000 |})].
Proof.
  split; [reflexivity|].
  apply (analyzeEmotion_request VUndefined [] (VStr "I feel great") (VNum 42)).
  reflexivity.
Defined.

(* ===================================================================== *)
(** ** Configuration *)
(* ===================================================================== *)

(** Claim C5.  When the environment gives no [VITE_API_URL], the client's
    base URL is [http://localhost:8000], and, while the client is as the
    module built it, every request of either helper carries that base
    URL. *)
Theorem base_url_default import_meta tr i :
  VITE_API_URL import_meta = VUndefined ->
  untouched tr = true ->
  helper i = true ->
  let w := run (load import_meta) tr in
  baseURL (defaults (api import_meta)) = VStr "http://localhost:8000" /\
  baseURL <$> sent_by (step w (Invoke i)) (upcoming w)
    = [VStr "http://localhost:8000"].
Proof.
  intros Habsent Hq Hh w.
  assert (Hb : baseURL (defaults (api import_meta))
               = VStr "http://localhost:8000").
  { simpl. by rewrite Habsent. }
  split; [done|].
  destruct (api_call import_meta tr i Hq) as (_ & _ & _ & Hs & _).
  unfold w. rewrite Hs. simpl in *. rewrite Habsent. simpl.
  by destruct i.
Qed.

Lemma base_url_default_witness :
  let import_meta := VObj [("env", VObj [("MODE", VStr "development")])] in
  let tr := [Invoke (AnalyzeEmotion (VStr "I feel great") (VNum 42))] in
  VITE_API_URL import_meta = VUndefined /\
  untouched tr = true /\
  helper (GetDashboardData (VNum 42) (VNum 7)) = true /\
  baseURL (defaults (api import_meta)) = VStr "http://localhost:8000" /\
  baseURL <$> sent_by (run (load import_meta)
                           (tr ++ [Invoke (GetDashboardData (VNum 42) (VNum 7))]))
                      1
    = [VStr "http://localhost:8000"].
Proof.
  intros import_meta tr. split_and!; [reflexivity..| |];
    apply (base_url_default import_meta tr
             (GetDashboardData (VNum 42) (VNum 7))); reflexivity.
Defined.

(** Claim C9.  The fallback is taken for every falsy override, not only
    for an absent one: with [VITE_API_URL] set to the empty string, with
    no [env] object at all, and in general whenever the override is falsy,
    the client's base URL is [http://localhost:8000]. *)
Theorem base_url_falsy_override import_meta :
  VITE_API_URL import_meta = VStr "" \/
  opt_member import_meta "env" = VUndefined \/
  truthy (VITE_API_URL import_meta) = false ->
  baseURL (defaults (api import_meta)) = VStr "http://localhost:8000".
Proof.
  intros H.
  assert (F : truthy (VITE_API_URL import_meta) = false).
  { destruct H as [E|[E|E]]; [by rewrite E| |done].
    unfold VITE_API_URL. by rewrite E. }
  simpl. unfold or. by rewrite F.
Qed.

Lemma base_url_falsy_override_witness :
  let import_meta := VObj [("env", VObj [("VITE_API_URL", VStr "")])] in
  VITE_API_URL import_meta = VStr "" /\
  baseURL (defaults (api import_meta)) = VStr "http://localhost:8000".
Proof.
  intros import_meta. split; [reflexivity|].
  apply (base_url_falsy_override import_meta). left. reflexivity.
Defined.

(** Claim C6, as the code has it.  The client is built once, when the
    module is loaded, with a timeout of 30000 ms; neither helper and no
    reply changes it, so as long as no caller alters the exported client,
    it stays as built and every request of either helper carries a
    timeout of 30000 ms. *)
Theorem timeout_fixed_while_untouched import_meta tr i :
  untouched tr = true ->
  helper i = true ->
  let w := run (load import_meta) tr in
  shared w = api import_meta /\
  shared (step w (Invoke i)) = api import_meta /\
  timeout (defaults (api import_meta)) = VNum 30000 /\
  timeout <$> sent_by (step w (Invoke i)) (upcoming w) = [VNum 30000].
Proof.
  intros Hq Hh w.
  destruct (api_call import_meta tr i Hq) as (Hs & _ & _ & Hsent & _).
  split_and!; [by apply run_shared|done|done|].
  unfold w. rewrite Hsent. by destruct i.
Qed.

Lemma timeout_fixed_while_untouched_witness :
  let tr := [Invoke (GetDashboardData (VNum 42) (VNum 7));
             Reply 0 (Failure (VStr "Network Error"))] in
  let w := run (load VUndefined) tr in
  untouched tr = true /\
  helper (AnalyzeEmotion (VStr "I feel great") (VNum 42)) = true /\
  shared w = api VUndefined /\
  timeout <$> sent_by
    (step w (Invoke (AnalyzeEmotion (VStr "I feel great") (VNum 42)))) 1
    = [VNum 30000].
Proof.
  intros tr w. split_and!; [reflexivity..| |];
    apply (timeout_fixed_while_untouched VUndefined tr
             (AnalyzeEmotion (VStr "I feel great") (VNum 42))); reflexivity.
Defined.

(** Claim C6, as stated, fails: the client is the module's default export,
    and a caller that assigns [api.defaults.timeout = 1] changes the
    configuration; the next [getDashboardData(42, 7)] carries a timeout of
    1 ms, not 30000. *)
Lemma timeout_changed_through_default_export :
  let trace := [Mutate (SetDefaults (with_timeout (VNum 1)));
                Invoke (GetDashboardData (VNum 42) (VNum 7))] in
  let w := run (load VUndefined) trace in
  timeout (defaults (shared w)) = VNum 1 /\
  timeout <$> sent_by w 0 = [VNum 1] /\
  timeout <$> sent_by w 0 <> [VNum 30000].
Proof. split_and!; [reflexivity|reflexivity|discriminate]. Qed.

(* ===================================================================== *)
(** ** The dashboard path *)
(* ===================================================================== *)

(** Claim C8.  [getDashboardData] builds its path by plain interpolation,
    for every [userId]: the template literal takes the string form of
    [userId] as the language gives it and puts it between ["/api/users/"]
    and ["/dashboard"]; the call sends that and nothing else, and where
    there is no string form the literal throws and the call with it.  A
    string enters character for character: nothing is escaped or
    checked, so the path of the request is decided by the characters of
    [userId]: a [/] in it adds a segment, a [?] or a [#] ends the path
    before ["/dashboard"]. *)
Theorem dashboard_path_not_escaped import_meta tr userId days :
  untouched tr = true ->
  let w := run (load import_meta) tr in
  let called := getDashboardData userId days w in
  let sent := url <$> sent_by called.2 (upcoming w) in
  match to_string userId with
  | Fulfilled s => sent = [VStr ("/api/users/" +:+ s +:+ "/dashboard")]
  | Rejected e => called = (Rejected e, w)
  end /\
  (forall s, userId = VStr s ->
     sent = [VStr ("/api/users/" +:+ s +:+ "/dashboard")] /\
     Url.path ("/api/users/" +:+ s +:+ "/dashboard")
       = "/api/users/" +:+ Url.path (s +:+ "/dashboard")) /\
  (userId = VStr "7/export" ->
     sent = [VStr "/api/users/7/export/dashboard"] /\
     Url.segments (Url.path "/api/users/7/export/dashboard")
       = [""; "api"; "users"; "7"; "export"; "dashboard"]) /\
  (userId = VStr "7?full=1" ->
     sent = [VStr "/api/users/7?full=1/dashboard"] /\
     Url.path "/api/users/7?full=1/dashboard" = "/api/users/7") /\
  (userId = VStr "7#" ->
     sent = [VStr "/api/users/7#/dashboard"] /\
     Url.path "/api/users/7#/dashboard" = "/api/users/7") /\
  (userId = VNum 42 -> sent = [VStr "/api/users/42/dashboard"]) /\
  (userId = VNum (-3) -> sent = [VStr "/api/users/-3/dashboard"]) /\
  (userId = VNum (10 ^ 21) -> sent = [VStr "/api/users/1e+21/dashboard"]) /\
  (userId = VNum 123456789012345683968 ->
     sent = [VStr "/api/users/123456789012345680000/dashboard"]) /\
  (userId = VUndefined -> sent = [VStr "/api/users/undefined/dashboard"]) /\
  (userId = VNull -> sent = [VStr "/api/users/null/dashboard"]) /\
  (userId = VBool true -> sent = [VStr "/api/users/true/dashboard"]) /\
  (userId = VBool false -> sent = [VStr "/api/users/false/dashboard"]) /\
  (userId = VObj [("id", VNum 42)] ->
     sent = [VStr "/api/users/[object Object]/dashboard"]) /\
  (userId = VObj [("toString", VNum 1)] -> called = (Rejected TypeError, w)).
Proof.
  intros Hq w called sent.
  assert (E : forall s, to_string userId = Fulfilled s ->
            sent = [VStr ("/api/users/" +:+ s +:+ "/dashboard")]).
  { intros s Hs.
    destruct (getDashboardData_call import_meta tr userId days s Hq Hs)
      as (_ & _ & H).
    exact (f_equal (fmap url) H). }
  split.
  { destruct (to_string userId) as [s|e] eqn:Hs; [by apply E|].
    by apply getDashboardData_throws. }
  split_and!; try (intros; subst userId; by rewrite (E _ eq_refl)).
  all: intros ->.
  all: first [ by apply getDashboardData_throws
             | apply (E "1e+21"); vm_compute; reflexivity
             | apply (E "123456789012345680000"); vm_compute; reflexivity ].
Qed.

Lemma dashboard_path_not_escaped_witness :
  let sent :=
    url <$> sent_by (getDashboardData (VStr "7?full=1") (VNum 7)
                                      (load VUndefined)).2 0 in
  untouched [] = true /\
  sent = [VStr "/api/users/7?full=1/dashboard"] /\
  Url.path "/api/users/7?full=1/dashboard" = "/api/users/7".
Proof.
  intros sent. split; [reflexivity|].
  apply (dashboard_path_not_escaped VUndefined [] (VStr "7?full=1") (VNum 7)
           eq_refl).
  reflexivity.
Defined.

(* ===================================================================== *)
(** ** Calls in flight together *)
(* ===================================================================== *)

(** Claim C7.  Calls in flight together do not interfere.  Take any call,
    made after the turns [before]; let any other calls and replies
    ([between]) happen while it waits, then its own reply [x], then
    anything else ([after]).  Whatever those other turns are, the client
    is still as the module built it, the call has sent the one request
    its own arguments describe, and its promise has settled with the body
    or the error of its own reply. *)
Theorem calls_do_not_interfere import_meta before between after i x :
  untouched (before ++ between ++ after) = true ->
  let id := upcoming (run (load import_meta) before) in
  unanswered id between = true ->
  let final :=
    run (load import_meta)
        (before ++ Invoke i :: between ++ Reply id x :: after) in
  shared final = api import_meta /\
  sent_by final id = [request_config (api import_meta) (asked i)] /\
  promise_of final id =
    Some (Settled match x with
                  | Success res => Fulfilled (r_data res)
                  | Failure err => Rejected err
                  end).
Proof.
  intros Hq id Hu final.
  destruct (api_exchange import_meta before between after i x Hq Hu)
    as (Hs & Hsent & Hp).
  split_and!; [done|done|]. unfold final, id. by rewrite Hp, api_through.
Qed.

Lemma calls_do_not_interfere_witness :
  let before := [Invoke (GetDashboardData (VNum 42) (VNum 7))] in
  let between :=
    [Invoke (GetDashboardData (VNum 5) (VNum 30));
     Reply 2 (Failure (VStr "Network Error"));
     Reply 0 (Success (Response (VStr "dashboard of 42") 200 "OK" (VObj [])))] in
  let after := [Reply 1 (Failure (VStr "late"))] in
  let final :=
    run (load VUndefined)
        (before ++ Invoke (AnalyzeEmotion (VStr "I feel great") (VNum 42))
                :: between
                ++ Reply 1 (Success (Response (VStr "joy") 200 "OK" (VObj [])))
                :: after) in
  untouched (before ++ between ++ after) = true /\
  unanswered 1 between = true /\
  promise_of final 1 = Some (Settled (Fulfilled (VStr "joy"))) /\
  promise_of final 0 = Some (Settled (Fulfilled (VStr "dashboard of 42"))) /\
  promise_of final 2 = Some (Settled (Rejected (VStr "Network Error"))).
Proof.
  intros before between after final.
  split_and!; [reflexivity|reflexivity| |reflexivity|reflexivity].
  apply (calls_do_not_interfere VUndefined before between after
           (AnalyzeEmotion (VStr "I feel great") (VNum 42))
           (Success (Response (VStr "joy") 200 "OK" (VObj [])))
           eq_refl eq_refl).
Defined.

(* ===================================================================== *)
(** ** The exported client *)
(* ===================================================================== *)

(** Claim C10.  The helpers send their requests through the client
    object the module also exports as its default: a helper call is a
    [request] made on that object.  So what a caller attaches to the
    default export (a response interceptor, a request interceptor,
    assigned defaults) applies to every helper call made afterwards:
    the request that goes out and the value the promise settles with
    are those of the client as changed.  An attached response
    interceptor is applied to what the call would have settled with; an
    attached request interceptor decides what is sent, if anything;
    assigned defaults (base URL, timeout, [params] merged with the
    call's own) are carried by the request. *)
Theorem helpers_use_exported_client import_meta tr1 tr2 m i x :
  untouched tr1 = true ->
  untouched tr2 = true ->
  helper i = true ->
  let changed := mutate m (api import_meta) in
  let w := run (load import_meta) (tr1 ++ Mutate m :: tr2) in
  let id := upcoming w in
  let final := run w [Invoke i; Reply id x] in
  let settled := match x with
                 | Success res => Fulfilled (r_data res)
                 | Failure err => Rejected err
                 end in
  final = run w [Invoke (ApiRequest (asked i)); Reply id x] /\
  shared w = changed /\
  match outgoing changed (asked i) with
  | Fulfilled sent =>
      sent_by final id = [sent] /\
      promise_of final id =
        Some (Settled (through (response_interceptors changed) (arrival x)))
  | Rejected e =>
      sent_by final id = [] /\
      promise_of final id =
        Some (Settled (through (response_interceptors changed) (Rejected e)))
  end /\
  (forall h, m = UseResponse h ->
     sent_by final id = [request_config (api import_meta) (asked i)] /\
     promise_of final id = Some (Settled (then_ settled h))) /\
  (forall h f, m = UseRequest h -> fulfilled h = Some f ->
     match f (request_config (api import_meta) (asked i)) with
     | Fulfilled sent =>
         sent_by final id = [sent] /\
         promise_of final id = Some (Settled settled)
     | Rejected e =>
         sent_by final id = [] /\
         promise_of final id = Some (Settled (Rejected e))
     end) /\
  (forall g, m = SetDefaults g ->
     sent_by final id =
       [request_config (set_defaults (api import_meta) g) (asked i)] /\
     baseURL <$> sent_by final id = [baseURL (g (defaults (api import_meta)))] /\
     timeout <$> sent_by final id = [timeout (g (defaults (api import_meta)))] /\
     params <$> sent_by final id =
       [mergeDeepProperties (params (g (defaults (api import_meta))))
                            (params (asked i))] /\
     promise_of final id = Some (Settled settled)).
Proof.
  intros H1 H2 Hh changed w id final settled.
  assert (Hs : shared w = changed).
  { unfold w. rewrite run_app, run_cons, run_shared by done. simpl.
    by rewrite run_shared. }
  assert (T : tidy w) by apply tidy_run, tidy_load.
  pose proof (call_answered w i x T) as A. rewrite Hs in A.
  fold id final in A.
  split_and!.
  - unfold final. simpl. by rewrite !invoke_request.
  - done.
  - done.
  - intros h ->. subst changed. simpl in A.
    change (outgoing (use_response (api import_meta) h) (asked i))
      with (Fulfilled (A := config)
              (request_config (api import_meta) (asked i))) in A.
    destruct A as [-> ->]. split; [done|]. by destruct x.
  - intros h f -> Hf. subst changed. simpl in A.
    change (outgoing (use_request (api import_meta) h) (asked i))
      with (then_ (Fulfilled (request_config (api import_meta) (asked i))) h)
      in A.
    unfold then_ in A. rewrite Hf in A.
    destruct (f (request_config (api import_meta) (asked i))) as [sent|e];
      destruct A as [-> ->]; (split; [done|]); [by destruct x|done].
  - intros g ->. subst changed. simpl in A.
    change (outgoing (set_defaults (api import_meta) g) (asked i))
      with (Fulfilled (A := config)
              (request_config (set_defaults (api import_meta) g) (asked i)))
      in A.
    destruct A as [-> ->].
    split_and!; [done| | |done|by destruct x];
      destruct i as [userId days has_form|text userId|c]; done.
Qed.

Lemma helpers_use_exported_client_witness :
  let m := SetDefaults (with_params (VObj [("a", VNum 1)])) in
  let tr1 := [Invoke (AnalyzeEmotion (VStr "I feel great") (VNum 42))] in
  let i := GetDashboardData (VNum 42) (VNum 7) in
  let final :=
    run (load VUndefined)
        (tr1 ++ [Mutate m; Invoke i;
                 Reply 1 (Success (Response (VStr "body") 200 "OK" (VObj [])))]) in
  untouched tr1 = true /\
  untouched [] = true /\
  helper i = true /\
  params <$> sent_by final 1 = [VObj [("a", VNum 1); ("days", VNum 7)]] /\
  promise_of final 1 = Some (Settled (Fulfilled (VStr "body"))).
Proof.
  intros m tr1 i final. split_and!; [reflexivity..| |].
  - exact (proj1 (proj2 (proj2 (proj2
      (proj2 (proj2 (proj2 (proj2 (proj2
        (helpers_use_exported_client VUndefined tr1 [] m i
           (Success (Response (VStr "body") 200 "OK" (VObj [])))
           eq_refl eq_refl eq_refl)))))
      (with_params (VObj [("a", VNum 1)])) eq_refl))))).
  - exact (proj2 (proj2 (proj2 (proj2
      (proj2 (proj2 (proj2 (proj2 (proj2
        (helpers_use_exported_client VUndefined tr1 [] m i
           (Success (Response (VStr "body") 200 "OK" (VObj [])))
           eq_refl eq_refl eq_refl)))))
      (with_params (VObj [("a", VNum 1)])) eq_refl))))).
Defined.

(* ===================================================================== *)
(** ** Strings and paths *)
(* ===================================================================== *)

Section Strings.

Implicit Types (s t seg : string) (f : ascii -> bool).

Lemma append_cons a s t : String a s +:+ t = String a (s +:+ t).
Proof. done. Qed.

Lemma append_length s t :
  String.length (s +:+ t) = String.length s + String.length t.
Proof.
  induction s as [|a s IH]; [done|]. rewrite append_cons. simpl. by rewrite IH.
Qed.

Lemma append_nil_r s : s +:+ "" = s.
Proof. induction s as [|a s IH]; [done|]. by rewrite append_cons, IH. Qed.

Lemma append_assoc s t u : (s +:+ t) +:+ u = s +:+ t +:+ u.
Proof. induction s as [|a s IH]; [done|]. by rewrite !append_cons, IH. Qed.

(** A common ending can be struck off. *)
Lemma append_inv_tail t : forall s1 s2, s1 +:+ t = s2 +:+ t -> s1 = s2.
Proof.
  induction s1 as [|a s1 IH]; intros [|b s2] E.
  - done.
  - apply (f_equal String.length) in E.
    rewrite !append_length in E. simpl in E. lia.
  - apply (f_equal String.length) in E.
    rewrite !append_length in E. simpl in E. lia.
  - rewrite !append_cons in E. injection E as -> E. f_equal. by apply IH.
Qed.

Lemma all_chars_app f s t :
  Url.all_chars f (s +:+ t) = Url.all_chars f s && Url.all_chars f t.
Proof.
  induction s as [|a s IH]; [done|]. rewrite append_cons. simpl.
  by rewrite IH, andb_assoc.
Qed.

Lemma all_chars_and f g s :
  Url.all_chars (fun a => f a && g a) s
  = Url.all_chars f s && Url.all_chars g s.
Proof.
  induction s as [|a s IH]; simpl; [done|]. rewrite IH.
  destruct (f a), (g a), (Url.all_chars f s); done.
Qed.

(** The path runs on through a stretch without [?] and [#]. *)
Lemma path_app s t :
  Url.all_chars (fun a => negb (Url.mark a)) s = true ->
  Url.path (s +:+ t) = s +:+ Url.path t.
Proof.
  induction s as [|a s IH]; [done|]. simpl. intros [Ha Hs]%andb_true_iff.
  apply negb_true_iff in Ha. unfold Url.mark in Ha.
  rewrite !append_cons. simpl. by rewrite Ha, IH.
Qed.

(** A stretch without [/] stays in the segment being read. *)
Lemma segments_from_app s : forall seg t,
  Url.all_chars (fun a => negb (Url.slash a)) s = true ->
  Url.segments_from seg (s +:+ t) = Url.segments_from (seg +:+ s) t.
Proof.
  induction s as [|a s IH]; intros seg t.
  - by rewrite append_nil_r.
  - simpl. intros [Ha Hs]%andb_true_iff. apply negb_true_iff in Ha.
    unfold Url.slash in Ha. rewrite Ha, IH by done. by rewrite append_assoc.
Qed.

End Strings.

Section Routes.

Implicit Types (s : string).

(** The decimal form of an integer is digits, with a [-] in front of a
    negative one. *)
Lemma pretty_N_go_plain x : forall s,
  Url.plain s = true -> Url.plain (pretty_N_go x s) = true.
Proof.
  induction (N.lt_wf_0 x) as [x _ IH]; intros s Hs.
  assert (x = 0 \/ 0 < x)%N as [->|Hx] by lia.
  - by rewrite pretty_N_go_0.
  - rewrite pretty_N_go_step by done. apply IH.
    + by apply N.div_lt.
    + unfold Url.plain in *. simpl. rewrite Hs.
      unfold pretty_N_char. by repeat case_match.
Qed.

Lemma pretty_Z_plain (n : Z) : Url.plain (pretty n) = true.
Proof.
  assert (P : forall p : positive, Url.plain (pretty p) = true).
  { intros p. unfold pretty, pretty_positive, pretty, pretty_N.
    case_decide; [done|]. by apply pretty_N_go_plain. }
  destruct n as [|p|p]; [done|apply P|].
  unfold pretty, pretty_Z, Url.plain. rewrite all_chars_app. simpl. apply P.
Qed.

(** The route a plain id gives. *)
Lemma route_of_plain s :
  Url.plain s = true ->
  Url.segments (Url.path ("/api/users/" +:+ s +:+ "/dashboard"))
  = [""; "api"; "users"; s; "dashboard"].
Proof.
  intros Hs. unfold Url.plain in Hs. rewrite all_chars_and in Hs.
  apply andb_true_iff in Hs as [Hslash Hmark].
  assert (E : Url.path ("/api/users/" +:+ s +:+ "/dashboard")
              = "/api/users/" +:+ s +:+ "/dashboard").
  { change (Url.path ("/api/users/" +:+ s +:+ "/dashboard"))
      with ("/api/users/" +:+ Url.path (s +:+ "/dashboard")).
    by rewrite path_app. }
  rewrite E.
  change (Url.segments ("/api/users/" +:+ s +:+ "/dashboard"))
    with ("" :: "api" :: "users"
             :: Url.segments_from "" (s +:+ "/dashboard")).
  by rewrite segments_from_app.
Qed.

End Routes.

(* ===================================================================== *)
(** ** Further properties: the base URL *)
(* ===================================================================== *)

(** Property X1.  A truthy [VITE_API_URL] is the client's base URL, and, while the
    client is as the module built it, every request of either helper
    carries it. *)
Theorem base_url_override_used import_meta tr i :
  truthy (VITE_API_URL import_meta) = true ->
  untouched tr = true ->
  helper i = true ->
  let w := run (load import_meta) tr in
  baseURL (defaults (api import_meta)) = VITE_API_URL import_meta /\
  baseURL <$> sent_by (step w (Invoke i)) (upcoming w)
    = [VITE_API_URL import_meta].
Proof.
  intros T Hq Hh w.
  pose proof (api_base_url_override import_meta T) as Hb.
  split; [done|].
  destruct (api_call import_meta tr i Hq) as (_ & _ & _ & Hs & _).
  unfold w. rewrite Hs, <- Hb. by destruct i.
Qed.

Lemma base_url_override_used_witness :
  let import_meta :=
    VObj [("env", VObj [("VITE_API_URL", VStr "https://api.example.org")])] in
  let tr := [Invoke (GetDashboardData (VNum 42) (VNum 7))] in
  truthy (VITE_API_URL import_meta) = true /\
  untouched tr = true /\
  helper (AnalyzeEmotion (VStr "I feel great") (VNum 42)) = true /\
  baseURL <$> sent_by
    (run (load import_meta)
         (tr ++ [Invoke (AnalyzeEmotion (VStr "I feel great") (VNum 42))])) 1
    = [VStr "https://api.example.org"].
Proof.
  intros import_meta tr. split_and!; [reflexivity..|].
  apply (base_url_override_used import_meta tr
           (AnalyzeEmotion (VStr "I feel great") (VNum 42)));
    reflexivity.
Defined.

(** Property X2.  Whatever the environment holds, the client has a base URL: it is
    truthy, and it is the override or [http://localhost:8000]. *)
Theorem base_url_never_missing import_meta :
  truthy (baseURL (defaults (api import_meta))) = true /\
  (baseURL (defaults (api import_meta)) = VITE_API_URL import_meta \/
   baseURL (defaults (api import_meta)) = VStr "http://localhost:8000").
Proof.
  destruct (truthy (VITE_API_URL import_meta)) eqn:T.
  - rewrite (api_base_url_override import_meta T). auto.
  - simpl. unfold or. rewrite T. auto.
Qed.

(* ===================================================================== *)
(** ** Further properties: the dashboard path *)
(* ===================================================================== *)

(** Property X3.  Two dashboard requests go to the same path exactly
    when the two ids have the same string form, numbers as the language
    prints them: 42 and ["42"] share a path, and so do 1e21 and
    ["1e+21"]; two safe integer ids that differ, and two string ids
    that differ, never share one. *)
Theorem dashboard_path_injective import_meta tr u1 u2 d1 d2 s1 s2 :
  untouched tr = true ->
  to_string u1 = Fulfilled s1 ->
  to_string u2 = Fulfilled s2 ->
  let w := run (load import_meta) tr in
  let sent u d := url <$> sent_by (getDashboardData u d w).2 (upcoming w) in
  sent u1 d1 = [VStr ("/api/users/" +:+ s1 +:+ "/dashboard")] /\
  sent u2 d2 = [VStr ("/api/users/" +:+ s2 +:+ "/dashboard")] /\
  (sent u1 d1 = sent u2 d2 <-> s1 = s2) /\
  (forall n1 n2, u1 = VNum n1 -> u2 = VNum n2 ->
     safe_integer n1 = true -> safe_integer n2 = true ->
     sent u1 d1 = sent u2 d2 -> n1 = n2) /\
  (forall t1 t2, u1 = VStr t1 -> u2 = VStr t2 ->
     sent u1 d1 = sent u2 d2 -> t1 = t2).
Proof.
  intros Hq E1 E2 w sent.
  assert (S1 : sent u1 d1 = [VStr ("/api/users/" +:+ s1 +:+ "/dashboard")]).
  { destruct (getDashboardData_call import_meta tr u1 d1 s1 Hq E1)
      as (_ & _ & H).
    exact (f_equal (fmap url) H). }
  assert (S2 : sent u2 d2 = [VStr ("/api/users/" +:+ s2 +:+ "/dashboard")]).
  { destruct (getDashboardData_call import_meta tr u2 d2 s2 Hq E2)
      as (_ & _ & H).
    exact (f_equal (fmap url) H). }
  assert (I : sent u1 d1 = sent u2 d2 <-> s1 = s2).
  { rewrite S1, S2. split; [|by intros ->].
    intros [= H]. apply String.app_inj in H. by apply append_inv_tail in H. }
  split_and!; [done|done|done|..].
  - intros n1 n2 -> -> F1 F2 H. apply I in H. subst s2.
    rewrite (to_string_safe_integer _ F1) in E1.
    rewrite (to_string_safe_integer _ F2) in E2.
    injection E1 as <-. injection E2 as E2. by apply pretty_Z_inj in E2.
  - intros t1 t2 -> -> H. apply I in H. simpl in E1, E2. congruence.
Qed.

Lemma dashboard_path_injective_witness :
  let w := load VUndefined in
  let sent u d := url <$> sent_by (getDashboardData u d w).2 0 in
  untouched [] = true /\
  to_string (VNum (10 ^ 21)) = Fulfilled "1e+21" /\
  to_string (VStr "1e+21") = Fulfilled "1e+21" /\
  sent (VNum (10 ^ 21)) (VNum 7) = [VStr "/api/users/1e+21/dashboard"] /\
  sent (VStr "1e+21") (VNum 30) = [VStr "/api/users/1e+21/dashboard"].
Proof.
  intros w sent.
  assert (E : to_string (VNum (10 ^ 21)) = Fulfilled "1e+21")
    by (vm_compute; reflexivity).
  pose proof (dashboard_path_injective VUndefined [] (VNum (10 ^ 21))
                (VStr "1e+21") (VNum 7) (VNum 30) "1e+21" "1e+21"
                eq_refl E eq_refl) as (S1 & S2 & _).
  split_and!; [reflexivity|exact E|reflexivity|exact S1|exact S2].
Defined.

(** Property X5.  A safe integer id always reaches its own dashboard route. *)
Theorem dashboard_route_of_integer import_meta tr n days :
  untouched tr = true ->
  safe_integer n = true ->
  let w := run (load import_meta) tr in
  let sent := url <$> sent_by (getDashboardData (VNum n) days w).2 (upcoming w) in
  let u := "/api/users/" +:+ pretty n +:+ "/dashboard" in
  sent = [VStr u] /\
  Url.segments (Url.path u) = [""; "api"; "users"; pretty n; "dashboard"].
Proof.
  intros Hq Hn w sent u. split.
  - destruct (getDashboardData_call import_meta tr (VNum n) days (pretty n)
                Hq (to_string_safe_integer n Hn)) as (_ & _ & Hs).
    exact (f_equal (fmap url) Hs).
  - apply route_of_plain, pretty_Z_plain.
Qed.

Lemma dashboard_route_of_integer_witness :
  untouched [] = true /\
  safe_integer (-3) = true /\
  url <$> sent_by (getDashboardData (VNum (-3)) (VNum 7) (load VNull)).2 0
    = [VStr "/api/users/-3/dashboard"] /\
  Url.segments (Url.path "/api/users/-3/dashboard")
    = [""; "api"; "users"; "-3"; "dashboard"].
Proof.
  split_and!; [reflexivity|reflexivity|..];
    apply (dashboard_route_of_integer VNull [] (-3) (VNum 7)); reflexivity.
Defined.

(* ===================================================================== *)
(** ** Further properties: requests and promises over a whole run *)
(* ===================================================================== *)

Section Runs.

Implicit Types (w : world) (i : invocation) (tr : list event) (id : nat).

Lemma calls_app tr1 tr2 : calls (tr1 ++ tr2) = calls tr1 ++ calls tr2.
Proof. apply omap_app. Qed.

(** The wire after a run that starts from any state in which the client
    is as the module built it. *)
Lemma wire_run import_meta tr : forall w,
  untouched tr = true ->
  shared w = api import_meta ->
  wire (loop (run w tr)) =
    wire (loop w) ++
    imap (fun k i => (upcoming w + k,
                      request_config (api import_meta) (asked i)))
         (calls tr) /\
  upcoming (run w tr) = upcoming w + length (calls tr).
Proof.
  induction tr as [|e tr IH]; intros w Hq Hs.
  - simpl. by rewrite app_nil_r, Nat.add_0_r.
  - simpl in Hq. apply andb_true_iff in Hq as [He Hq].
    rewrite run_cons. destruct e as [i|m|id x]; [|done|].
    + destruct (invoke_spec i w) as (Hs' & Hn & H).
      rewrite Hs, api_outgoing in H. destruct H as [Hw _].
      destruct (IH (step w (Invoke i)) Hq) as [IHw IHn];
        [simpl; congruence|].
      simpl in *. rewrite IHw, IHn, Hw, Hn, <- app_assoc. simpl.
      rewrite Nat.add_0_r. split; [|lia].
      do 2 f_equal. apply imap_ext. intros k j _. simpl. f_equal. lia.
    + destruct (reply_spec id x w) as (Hs' & Hn & Hw & _).
      destruct (IH (step w (Reply id x)) Hq) as [IHw IHn]; [congruence|].
      rewrite IHw, IHn, Hw, Hn. done.
Qed.

End Runs.

(** Property X6.  While no caller alters the client, the wire holds one request for
    each call made so far, in the order of the calls, each numbered by
    its call and built from that call's own arguments; replies add
    nothing and take nothing away. *)
Theorem wire_follows_calls import_meta tr :
  untouched tr = true ->
  let w := run (load import_meta) tr in
  wire (loop w) =
    imap (fun k i => (k, request_config (api import_meta) (asked i)))
         (calls tr) /\
  upcoming w = length (calls tr).
Proof.
  intros Hq w.
  destruct (wire_run import_meta tr (load import_meta) Hq eq_refl) as [Hw Hn].
  split; [|exact Hn]. exact Hw.
Qed.

Lemma wire_follows_calls_witness :
  let tr := [Invoke (GetDashboardData (VNum 42) (VNum 7));
             Reply 0 (Failure (VStr "Network Error"));
             Invoke (AnalyzeEmotion (VStr "I feel great") (VNum 42));
             Reply 0 (Failure (VStr "again"));
             Reply 1 (Success (Response VNull 204 "No Content" (VObj [])))] in
  untouched tr = true /\
  wire (loop (run (load VUndefined) tr)) =
    [(0, request_config (api VUndefined)
           (asked (GetDashboardData (VNum 42) (VNum 7))));
     (1, request_config (api VUndefined)
           (asked (AnalyzeEmotion (VStr "I feel great") (VNum 42))))].
Proof.
  intros tr. split; [reflexivity|].
  apply (wire_follows_calls VUndefined tr). reflexivity.
Defined.

(** Property X7.  A call that has had no reply is still pending, whatever other calls
    and replies have gone by: the module settles nothing by itself, and
    the call's one request stays on the wire. *)
Theorem unanswered_call_stays_pending import_meta before between i :
  untouched (before ++ between) = true ->
  let id := upcoming (run (load import_meta) before) in
  unanswered id between = true ->
  let now := run (load import_meta) (before ++ Invoke i :: between) in
  promise_of now id = Some (Pending (response_interceptors (api import_meta))) /\
  sent_by now id = [request_config (api import_meta) (asked i)].
Proof.
  intros Hq id Hu now.
  rewrite untouched_app in Hq. apply andb_true_iff in Hq as [Hb Hm].
  destruct (api_call import_meta before i Hb) as (_ & Hn & _ & Hsent & Hp).
  assert (Hid : id < upcoming (step (run (load import_meta) before) (Invoke i)))
    by (rewrite Hn; unfold id; lia).
  unfold now. rewrite run_app, run_cons. split.
  - by apply promise_run.
  - by rewrite sent_by_run.
Qed.

Lemma unanswered_call_stays_pending_witness :
  let before := [Invoke (GetDashboardData (VNum 42) (VNum 7))] in
  let between :=
    [Reply 0 (Failure (VStr "Network Error"));
     Invoke (GetDashboardData (VNum 5) (VNum 30));
     Reply 2 (Success (Response (VStr "five") 200 "OK" (VObj [])))] in
  let now :=
    run (load VUndefined)
        (before ++ Invoke (AnalyzeEmotion (VStr "I feel great") (VNum 42))
                :: between) in
  untouched (before ++ between) = true /\
  unanswered 1 between = true /\
  promise_of now 1 = Some (Pending (response_interceptors (api VUndefined))) /\
  promise_of now 2 = Some (Settled (Fulfilled (VStr "five"))).
Proof.
  intros before between now.
  split_and!; [reflexivity|reflexivity| |reflexivity].
  apply (unanswered_call_stays_pending VUndefined before between
           (AnalyzeEmotion (VStr "I feel great") (VNum 42))
           eq_refl eq_refl).
Defined.

(* ===================================================================== *)
(** ** Further properties: interceptors attached later *)
(* ===================================================================== *)

(** Property X8.  A response interceptor a caller attaches after the module was loaded
    runs after the module's own: on success its [fulfilled] callback is
    given the response body (not the response object), on failure its
    [rejected] callback is given the transport's error, and the caller's
    promise settles with what that callback returns. *)
Theorem later_response_interceptor_gets_body import_meta tr1 tr2 h i x :
  untouched tr1 = true ->
  untouched tr2 = true ->
  let w := run (load import_meta) (tr1 ++ Mutate (UseResponse h) :: tr2) in
  promise_of (run w [Invoke i; Reply (upcoming w) x]) (upcoming w) =
    Some (Settled (then_ match x with
                         | Success res => Fulfilled (r_data res)
                         | Failure err => Rejected err
                         end h)).
Proof.
  intros H1 H2 w.
  assert (Hs : shared w = use_response (api import_meta) h).
  { unfold w. rewrite run_app, run_cons, run_shared by done. simpl.
    by rewrite run_shared. }
  destruct (invoke_spec i w) as (_ & _ & H).
  rewrite Hs in H.
  change (outgoing (use_response (api import_meta) h) (asked i))
    with (Fulfilled (A := config) (request_config (api import_meta) (asked i)))
    in H.
  destruct H as [_ Hp].
  destruct (reply_spec (upcoming w) x (step w (Invoke i))) as (_ & _ & _ & R).
  change (run w [Invoke i; Reply (upcoming w) x])
    with (step (step w (Invoke i)) (Reply (upcoming w) x)).
  unfold promise_of in *. simpl in *. rewrite R, Hp, lookup_insert_eq.
  rewrite lookup_insert_eq. by destruct x.
Qed.

Lemma later_response_interceptor_gets_body_witness :
  let keys := Interceptor
    (Some (fun body => Fulfilled (VObj [("seen", body)])))
    (Some (fun err => Fulfilled (VObj [("recovered", err)]))) in
  let tr1 := [Invoke (GetDashboardData (VNum 42) (VNum 7))] in
  let w := run (load VUndefined) (tr1 ++ [Mutate (UseResponse keys)]) in
  untouched tr1 = true /\
  untouched [] = true /\
  promise_of
    (run w [Invoke (AnalyzeEmotion (VStr "I feel great") (VNum 42));
            Reply 1 (Success (Response (VStr "joy") 200 "OK" (VObj [])))]) 1
    = Some (Settled (Fulfilled (VObj [("seen", VStr "joy")]))).
Proof.
  intros keys tr1 w. split_and!; [reflexivity..|].
  apply (later_response_interceptor_gets_body VUndefined tr1 [] keys
           (AnalyzeEmotion (VStr "I feel great") (VNum 42))
           (Success (Response (VStr "joy") 200 "OK" (VObj [])))
           eq_refl eq_refl).
Defined.

(** Property X9.  The module's error callback passes on every rejection, not only the
    transport's: when a request interceptor attached by a caller rejects
    the config of a call, nothing is sent, the caller's promise is
    rejected at once with that interceptor's error, and a reply that
    comes for the call afterwards changes nothing. *)
Theorem request_interceptor_rejection_passes import_meta tr1 tr2 h f e i x :
  untouched tr1 = true ->
  untouched tr2 = true ->
  fulfilled h = Some f ->
  f (request_config (api import_meta) (asked i)) = Rejected e ->
  let w := run (load import_meta) (tr1 ++ Mutate (UseRequest h) :: tr2) in
  let called := step w (Invoke i) in
  wire (loop called) = wire (loop w) /\
  promise_of called (upcoming w) = Some (Settled (Rejected e)) /\
  promise_of (step called (Reply (upcoming w) x)) (upcoming w)
    = Some (Settled (Rejected e)).
Proof.
  intros H1 H2 Hf He w called.
  assert (Hs : shared w = use_request (api import_meta) h).
  { unfold w. rewrite run_app, run_cons, run_shared by done. simpl.
    by rewrite run_shared. }
  assert (Ho : outgoing (shared w) (asked i) = Rejected e).
  { rewrite Hs. unfold outgoing. simpl. unfold then_. by rewrite Hf. }
  destruct (invoke_spec i w) as (_ & Hn & H). rewrite Ho in H.
  destruct H as [Hw Hp]. rewrite Hs in Hp. simpl in Hp.
  assert (P : promise_of called (upcoming w) = Some (Settled (Rejected e))).
  { unfold promise_of, called. simpl. rewrite Hp. apply lookup_insert_eq. }
  split_and!; [done|done|].
  apply settled_step; [|done]. unfold called. simpl. rewrite Hn. lia.
Qed.

Lemma request_interceptor_rejection_passes_witness :
  let offline := VObj [("message", VStr "offline")] in
  let gate := Interceptor (Some (fun _ : config => Rejected offline)) None in
  let w := run (load VUndefined) [Mutate (UseRequest gate)] in
  let called := step w (Invoke (GetDashboardData (VNum 42) (VNum 7))) in
  untouched [] = true /\
  wire (loop called) = [] /\
  promise_of called 0 = Some (Settled (Rejected offline)).
Proof.
  intros offline gate w called. split; [reflexivity|].
  pose proof (request_interceptor_rejection_passes VUndefined [] [] gate
                (fun _ => Rejected offline) offline
                (GetDashboardData (VNum 42) (VNum 7))
                (Failure VNull) eq_refl eq_refl eq_refl eq_refl)
    as (Hw & Hp & _).
  split; [exact Hw|exact Hp].
Defined.

(* ===================================================================== *)
(** ** Further properties: the order of the turns *)
(* ===================================================================== *)

(** Property X10.  The replies to two different calls can come in either order: the
    state they leave is the same. *)
Theorem replies_commute w a b x y :
  a <> b ->
  step (step w (Reply a x)) (Reply b y) = step (step w (Reply b y)) (Reply a x).
Proof.
  intros Hab. simpl. f_equal. unfold reply.
  destruct (promises (loop w) !! a) as [[ca|ra]|] eqn:Ea;
    destruct (promises (loop w) !! b) as [[cb|rb]|] eqn:Eb; simpl;
    rewrite ?lookup_insert_ne, ?Ea, ?Eb by done; simpl;
    rewrite ?Ea, ?Eb; try done.
  f_equal. by apply insert_insert_ne.
Qed.

Lemma replies_commute_witness :
  let w := run (load VUndefined)
               [Invoke (GetDashboardData (VNum 42) (VNum 7));
                Invoke (AnalyzeEmotion (VStr "I feel great") (VNum 42))] in
  let x := Success (Response (VStr "dashboard") 200 "OK" (VObj [])) in
  let y := Failure (VStr "Network Error") in
  0 <> 1 /\
  step (step w (Reply 0 x)) (Reply 1 y) = step (step w (Reply 1 y)) (Reply 0 x).
Proof.
  intros w x y. split; [lia|].
  apply (replies_commute w 0 1 x y). lia.
Defined.

(** Property X11.  A reply to a call made earlier and a new call can come in either
    order: the state they leave is the same. *)
Theorem reply_commutes_with_call w a x i :
  a < upcoming w ->
  step (step w (Reply a x)) (Invoke i) = step (step w (Invoke i)) (Reply a x).
Proof.
  intros Ha. simpl. rewrite !invoke_request. unfold on_api. simpl.
  f_equal. unfold request, reply, upcoming in *.
  destruct (outgoing (shared w) (asked i)) as [sent|e];
    destruct (promises (loop w) !! a) as [[ca|ra]|] eqn:Ea; simpl;
    rewrite ?lookup_insert_ne, ?Ea by lia; simpl; try done;
    f_equal; apply insert_insert_ne; lia.
Qed.

Lemma reply_commutes_with_call_witness :
  let w := run (load VUndefined)
               [Invoke (GetDashboardData (VNum 42) (VNum 7))] in
  let x := Success (Response (VStr "dashboard") 200 "OK" (VObj [])) in
  let i := AnalyzeEmotion (VStr "I feel great") (VNum 42) in
  0 < upcoming w /\
  step (step w (Reply 0 x)) (Invoke i) = step (step w (Invoke i)) (Reply 0 x).
Proof.
  intros w x i. split; [vm_compute; lia|].
  apply (reply_commutes_with_call w 0 x i). vm_compute. lia.
Defined.
